(** * httplog: request/response logging middleware over hclog

    A shallow embedding of the package [httplog] (files [httplog.go] and
    [config.go]) and the properties of its field derivation, header
    redaction, status classification, configuration and request-scoped
    entry accessors.

    Conventions of the embedding:
    - Go [int] and [time.Duration] values are [Z]; the code only compares
      them, prints them and converts them to [float64], so no wrap-around
      arithmetic is involved.
    - Go strings are sequences of bytes: [string]; a [[]byte] is a list of
      bytes, or nil.
    - [[]interface{}] argument lists are [list value].
    - Package-level variables, the backing arrays of [[]string] slices, the
      [*RequestLoggerEntry] objects and the calls made on the logging
      backend live in an explicit [World] that is passed through. *)

From Stdlib Require Import ZArith NArith Ascii DecimalString.
From Stdlib Require Import Floats.PrimFloat Floats.SpecFloat Floats.FloatOps.
From stdpp Require Import gmap strings list.

Local Open Scope string_scope.
Local Open Scope Z_scope.
Local Open Scope list_scope.

(** ** Go runtime and standard library pieces used by the package *)

(** [strings.ToLower] on one byte of ASCII text. Bytes outside [A-Z] are
    left as they are. *)
Definition lowerByte (c : ascii) : ascii :=
  let n := N_of_ascii c in
  if ((65 <=? n) && (n <=? 90))%N then ascii_of_N (n + 32) else c.

(** [strings.ToLower] as it works on ASCII strings (HTTP header names are
    ASCII tokens): each byte is lower-cased on its own. On a string with a
    byte above 0x7f Go decodes UTF-8 and maps the runes through the Unicode
    case tables, which are not part of the package and not modelled: there
    this function leaves the byte as it is. What is stated below about the
    characters of a lower-cased string is stated for ASCII strings. *)
Fixpoint ToLower (s : string) : string :=
  match s with
  | EmptyString => EmptyString
  | String c r => String (lowerByte c) (ToLower r)
  end.

(** [strings.Join(elems, sep)]. *)
Fixpoint Join (elems : list string) (sep : string) : string :=
  match elems with
  | [] => ""
  | [e] => e
  | e :: rest => e +:+ sep +:+ Join rest sep
  end.

(** The [%d] verb of [fmt.Sprintf] on an [int]. *)
Definition Sprintf_d (n : Z) : string := NilZero.string_of_int (Z.to_int n).

(** The conversion [float64(n)] of an [int64]: round to nearest, ties to
    even, in binary64. *)
Definition float64_of_int64 (n : Z) : float :=
  SF2Prim (binary_normalize prec emax n 0 false).

(** A [[]byte]: [None] is the nil slice. The conversion [string(b)] keeps
    the bytes; the nil slice gives the empty string. *)
Definition bytes := option (list ascii).

Definition string_of_bytes (b : bytes) : string :=
  match b with
  | None => ""
  | Some l => String.string_of_list_ascii l
  end.

(** Values that the package puts in [[]interface{}] argument lists. *)
Inductive value : Type :=
  | VStr (s : string)
  | VInt (n : Z)
  | VFloat (f : float).

(** The [interface{}] argument [extra] of [Write], as far as the type
    assertion [extra.([]byte)] can tell its dynamic type apart. *)
Inductive Extra : Type :=
  | ExtraNil                    (* the nil interface *)
  | ExtraBytes (b : bytes)      (* dynamic type []byte, possibly a nil slice *)
  | ExtraOther (v : value).     (* any other dynamic type *)

(** [body, _ := extra.([]byte)]: the comma-ok form gives the zero value
    (the nil slice) when the assertion fails. *)
Definition assert_bytes (extra : Extra) : bytes :=
  match extra with
  | ExtraBytes b => b
  | ExtraNil | ExtraOther _ => None
  end.

(** Addresses of heap objects. *)
Definition loc := positive.

(** A [[]string] slice value: nil, or a view of a whole backing array. *)
Inductive strSlice : Type :=
  | nilSlice
  | sliceAt (p : loc).

(** ** The logging backend (package hclog), as the package sees it

    A logger handle records the key/value arguments it was derived with;
    what the backend does with repeated keys is its own business. The null
    logger ignores everything and [With] on it gives the null logger. A
    [Logger] is a logger value; the nil interface (the [Logger] field of a
    zero [RequestLoggerEntry], which the package never builds) is not among
    them, and a method call on it panics in Go. *)
Module hclog.

Inductive Level : Type :=
  | NoLevel | Trace | Debug | Info | Warn | Error | Off.

Inductive Logger : Type :=
  | NullLogger
  | IntLogger (implied : list value).

Definition With (l : Logger) (args : list value) : Logger :=
  match l with
  | NullLogger => NullLogger
  | IntLogger implied => IntLogger (implied ++ args)
  end.

Definition implied_of (l : Logger) : list value :=
  match l with
  | NullLogger => []
  | IntLogger implied => implied
  end.

(** One call [l.Log(level, msg, args...)]. *)
Record LogCall : Type := {
  call_logger : Logger;
  call_level : Level;
  call_msg : string;
  call_args : list value
}.

(** [hclog.LoggerOptions], the four fields [Configure] fills. [Level] is
    kept as the string handed to [hclog.LevelFromString]. *)
Record LoggerOptions : Type := {
  lo_Name : string;
  lo_LevelFrom : string;
  lo_TimeFormat : string;
  lo_JSONFormat : bool
}.

End hclog.

(** [time.RFC3339Nano]. *)
Definition RFC3339Nano : string := "2006-01-02T15:04:05.999999999Z07:00".

(** ** config.go *)

Record Options : Type := {
  Name : string;
  Level : string;
  JSONFormat : bool;
  TimeFormat : string;
  Concise : bool;
  Tags : option (gmap string string);
  SkipHeaders : strSlice
}.

(** ** httplog.go: data *)

Record RequestLoggerEntry : Type := {
  Logger : hclog.Logger;
  msg : string
}.

(** An [http.Header] is a [map[string][]string]; a [range] statement visits
    its entries in an order the language leaves open. The functions below
    take a header as the sequence of entries in the order the [range]
    statement happens to visit them; [ranges m kvs] says that [kvs] is such
    a visit of the map [m]. *)
Definition Header := list (string * list string).

Definition ranges (m : gmap string (list string)) (kvs : Header) : Prop :=
  kvs ≡ₚ map_to_list m.

(** The parts of an [*http.Request] that the package reads. [ReqID] is
    what [middleware.GetReqID(r.Context())] returns. *)
Record Request : Type := {
  TLS : bool;                 (* r.TLS != nil *)
  Host : string;
  RequestURI : string;
  Method : string;
  URL_Path : string;
  RemoteAddr : string;
  Proto : string;
  ReqID : string;
  Req_Header : Header
}.

(** The state the package reads and writes. *)
Record World : Type := {
  DefaultOptions : Options;                    (* httplog.DefaultOptions *)
  hclog_DefaultOptions : hclog.LoggerOptions;  (* hclog.DefaultOptions *)
  strArrays : gmap loc (list string);          (* backing arrays of []string *)
  entries : gmap loc RequestLoggerEntry;       (* *RequestLoggerEntry objects *)
  logged : list hclog.LogCall;                 (* calls of Logger.Log, oldest first *)
  prettyStacks : list string                   (* calls of middleware.PrintPrettyStack *)
}.

(** The elements a slice value denotes in a world. *)
Definition elems (w : World) (s : strSlice) : list string :=
  match s with
  | nilSlice => []
  | sliceAt p => default [] (strArrays w !! p)
  end.

(** ** config.go: [Configure] *)

Definition with_Level (o : Options) (v : string) : Options :=
  {| Name := Name o; Level := v; JSONFormat := JSONFormat o;
     TimeFormat := TimeFormat o; Concise := Concise o; Tags := Tags o;
     SkipHeaders := SkipHeaders o |}.

Definition with_TimeFormat (o : Options) (v : string) : Options :=
  {| Name := Name o; Level := Level o; JSONFormat := JSONFormat o;
     TimeFormat := v; Concise := Concise o; Tags := Tags o;
     SkipHeaders := SkipHeaders o |}.

(** [for i, header := range s { s[i] = strings.ToLower(header) }] on the
    backing array: [n] iterations are left, the next one is at index [i].
    The length is fixed when the loop starts; each element is read when its
    iteration comes. *)
Fixpoint lowerFrom (arr : list string) (i n : nat) : list string :=
  match n with
  | O => arr
  | S n' =>
      match arr !! i with
      | Some header => lowerFrom (<[i := ToLower header]> arr) (S i) n'
      | None => arr
      end
  end.

Definition lowerInPlace (arr : list string) : list string :=
  lowerFrom arr 0 (length arr).

Definition Configure (w : World) (opts : Options) : World :=
  let opts := if String.eqb (Level opts) "" then with_Level opts "info" else opts in
  let opts :=
    if String.eqb (TimeFormat opts) "" then with_TimeFormat opts RFC3339Nano
    else opts in
  let arrays :=
    match SkipHeaders opts with
    | nilSlice => strArrays w
    | sliceAt p => alter lowerInPlace p (strArrays w)
    end in
  {| DefaultOptions := opts;
     hclog_DefaultOptions :=
       {| hclog.lo_Name := Name opts;
          hclog.lo_LevelFrom := Level opts;
          hclog.lo_TimeFormat := TimeFormat opts;
          hclog.lo_JSONFormat := JSONFormat opts |};
     strArrays := arrays;
     entries := entries w;
     logged := logged w;
     prettyStacks := prettyStacks w |}.

(** ** httplog.go: status classification *)

Definition statusLevel (status : Z) : hclog.Level :=
  if status <=? 0 then hclog.Warn
  else if status <? 400 then hclog.Info
  else if (400 <=? status) && (status <? 500) then hclog.Warn
  else if 500 <=? status then hclog.Error
  else hclog.Info.

Definition statusLabel (status : Z) : string :=
  if (100 <=? status) && (status <? 300) then "OK"
  else if (300 <=? status) && (status <? 400) then "Redirect"
  else if (400 <=? status) && (status <? 500) then "Client Error"
  else if 500 <=? status then "Server Error"
  else "Unknown".

(** ** httplog.go: [headerLogField] *)

Definition mask : value := VStr "***".

(** The test [k == "authorization" || k == "cookie" || k == "set-cookie"]. *)
Definition isBuiltinSensitive (k : string) : bool :=
  String.eqb k "authorization" || String.eqb k "cookie"
  || String.eqb k "set-cookie".

(** The loop over [DefaultOptions.SkipHeaders], which stops at the first
    entry equal to [k]. *)
Fixpoint skipLoop (k : string) (skips : list string) (headerField : list value)
  : list value :=
  match skips with
  | [] => headerField
  | skip :: rest =>
      if String.eqb k skip then headerField ++ [VStr k; mask]
      else skipLoop k rest headerField
  end.

(** One iteration of [for k, v := range header]. *)
Definition headerStep (skips : list string) (headerField : list value)
    (kv : string * list string) : list value :=
  let k := ToLower kv.1 in
  let v := kv.2 in
  match v with
  | [] => headerField
  | v0 :: more =>
      let headerField :=
        match more with
        | [] => headerField ++ [VStr k; VStr v0]
        | _ => headerField ++ [VStr k; VStr ("[" +:+ Join v "], [" +:+ "]")]
        end in
      let headerField :=
        if isBuiltinSensitive k then headerField ++ [VStr k; mask]
        else headerField in
      skipLoop k skips headerField
  end.

Definition headerLogField (w : World) (header : Header) : list value :=
  fold_left (headerStep (elems w (SkipHeaders (DefaultOptions w)))) header [].

(** ** httplog.go: [requestLogFields] and [NewLogEntry] *)

Definition scheme_of (r : Request) : string :=
  if TLS r then "https" else "http".

Definition requestLogFields (w : World) (r : Request) (concise : bool)
  : list value :=
  let scheme := scheme_of r in
  let requestURL := scheme +:+ "://" +:+ Host r +:+ RequestURI r in
  let requestFields :=
    [VStr "requestURL"; VStr requestURL;
     VStr "requestMethod"; VStr (Method r);
     VStr "requestPath"; VStr (URL_Path r);
     VStr "remoteIP"; VStr (RemoteAddr r);
     VStr "proto"; VStr (Proto r)] in
  let requestFields :=
    if negb (String.eqb (ReqID r) "")
    then requestFields ++ [VStr "requestID"; VStr (ReqID r)]
    else requestFields in
  if concise then requestFields
  else
    let requestFields := requestFields ++ [VStr "scheme"; VStr scheme] in
    if (0 <? length (Req_Header r))%nat
    then requestFields ++ headerLogField w (Req_Header r)
    else requestFields.

(** [NewLogEntry] of [requestLogger]: [l] is the logger of the receiver. The
    result is the value of the freshly allocated entry. *)
Definition NewLogEntry (w : World) (l : hclog.Logger) (r : Request)
  : RequestLoggerEntry :=
  {| Logger := hclog.With l (requestLogFields w r true); msg := "" |}.

(** ** httplog.go: the methods of [*RequestLoggerEntry]

    The methods take the current value of the receiver; [Panic], which
    assigns to its fields, returns the new value. *)

Definition log_call (w : World) (c : hclog.LogCall) : World :=
  {| DefaultOptions := DefaultOptions w;
     hclog_DefaultOptions := hclog_DefaultOptions w;
     strArrays := strArrays w;
     entries := entries w;
     logged := logged w ++ [c];
     prettyStacks := prettyStacks w |}.

(** The slice [responseLog] that [Write] hands to [Log]. *)
Definition responseLog (w : World) (status bytes : Z) (header : Header)
    (elapsed : Z) (extra : Extra) : list value :=
  let responseLog :=
    [VStr "status"; VInt status;
     VStr "bytes"; VInt bytes;
     VStr "elapsed"; VFloat (float64_of_int64 elapsed / 1000000)%float] in
  if negb (Concise (DefaultOptions w)) then
    let responseLog :=
      if 400 <=? status then
        let body := assert_bytes extra in
        responseLog ++ [VStr "responseBody"; VStr (string_of_bytes body)]
      else responseLog in
    if (0 <? length header)%nat then responseLog ++ headerLogField w header
    else responseLog
  else responseLog.

(** The message that [Write] composes. *)
Definition writeMsg (l : RequestLoggerEntry) (status : Z) : string :=
  let m := Sprintf_d status +:+ " " +:+ statusLabel status in
  if negb (String.eqb (msg l) "") then m +:+ " - " +:+ msg l else m.

Definition Write (w : World) (l : RequestLoggerEntry) (status bytes : Z)
    (header : Header) (elapsed : Z) (extra : Extra) : World :=
  log_call w
    {| hclog.call_logger := Logger l;
       hclog.call_level := statusLevel status;
       hclog.call_msg := writeMsg l status;
       hclog.call_args := responseLog w status bytes header elapsed extra |}.

(** [Panic]: [v_text] is [fmt.Sprintf("%+v", v)] and [stack] the stack as a
    string. *)
Definition Panic (w : World) (l : RequestLoggerEntry) (v_text stack : string)
  : World * RequestLoggerEntry :=
  let stacktrace := if JSONFormat (DefaultOptions w) then stack else "#" in
  let l' :=
    {| Logger :=
         hclog.With (Logger l)
           [VStr "stacktrace"; VStr stacktrace; VStr "panic"; VStr v_text];
       msg := v_text |} in
  let w' :=
    if negb (JSONFormat (DefaultOptions w)) then
      {| DefaultOptions := DefaultOptions w;
         hclog_DefaultOptions := hclog_DefaultOptions w;
         strArrays := strArrays w;
         entries := entries w;
         logged := logged w;
         prettyStacks := prettyStacks w ++ [v_text] |}
    else w in
  (w', l').

(** The deferred function of [Handler]: [buf] is what [io.ReadAll] gets out
    of the tee buffer. *)
Definition Handler_deferred (w : World) (entry : RequestLoggerEntry)
    (ww_Status ww_BytesWritten : Z) (ww_Header : Header) (elapsed : Z)
    (buf : list ascii) : World :=
  let respBody : bytes := if 400 <=? ww_Status then Some buf else None in
  Write w entry ww_Status ww_BytesWritten ww_Header elapsed (ExtraBytes respBody).

(** ** httplog.go: the context accessors *)

(** What [ctx.Value(middleware.LogEntryCtxKey)] returns: the nil interface
    (nothing stored), a value of some other dynamic type, or a
    [*RequestLoggerEntry], which may be the nil pointer. *)
Inductive ctxValue : Type :=
  | CtxAbsent
  | CtxForeign (v : value)
  | CtxEntry (p : option loc).

(** The accessors return [None] where the Go code panics on a nil pointer
    dereference (a pointer outside the store, which Go rules out, is given
    the same result). *)
Definition LogEntry (w : World) (ctx : ctxValue) : option hclog.Logger :=
  match ctx with
  | CtxEntry (Some p) => Logger <$> entries w !! p
  | CtxEntry None | CtxAbsent | CtxForeign _ => Some hclog.NullLogger
  end.

Definition set_entry (w : World) (p : loc) (e : RequestLoggerEntry) : World :=
  {| DefaultOptions := DefaultOptions w;
     hclog_DefaultOptions := hclog_DefaultOptions w;
     strArrays := strArrays w;
     entries := <[p := e]> (entries w);
     logged := logged w;
     prettyStacks := prettyStacks w |}.

Definition LogEntrySetFields (w : World) (ctx : ctxValue) (fields : list value)
  : option World :=
  match ctx with
  | CtxEntry (Some p) =>
      entry ← entries w !! p;
      Some (set_entry w p
              {| Logger := hclog.With (Logger entry) fields; msg := msg entry |})
  | CtxEntry None => None
  | CtxAbsent | CtxForeign _ => Some w
  end.

Definition LogEntrySetField (w : World) (ctx : ctxValue) (key val : string)
  : option World :=
  match ctx with
  | CtxEntry (Some p) =>
      entry ← entries w !! p;
      Some (set_entry w p
              {| Logger := hclog.With (Logger entry) [VStr key; VStr val];
                 msg := msg entry |})
  | CtxEntry None => None
  | CtxAbsent | CtxForeign _ => Some w
  end.

(** ** Definitions used to state the properties *)

(** The package variables as [config.go] initialises them, nothing
    allocated and nothing logged yet. *)
Definition initialOptions : Options :=
  {| Name := ""; Level := "info"; JSONFormat := false;
     TimeFormat := RFC3339Nano; Concise := false; Tags := None;
     SkipHeaders := nilSlice |}.

Definition world0 : World :=
  {| DefaultOptions := initialOptions;
     hclog_DefaultOptions :=
       {| hclog.lo_Name := ""; hclog.lo_LevelFrom := "";
          hclog.lo_TimeFormat := ""; hclog.lo_JSONFormat := false |};
     strArrays := ∅;
     entries := ∅;
     logged := [];
     prettyStacks := [] |}.

(** The value that one iteration of [headerLogField] pairs with the name:
    the only value, or the bracketed join of several. *)
Definition headerValue (v : list string) : string :=
  match v with
  | [v0] => v0
  | _ => "[" +:+ Join v "], [" +:+ "]"
  end.

(** The configured skip list of a world. *)
Definition skipHeaders (w : World) : list string :=
  elems w (SkipHeaders (DefaultOptions w)).

(** The three always-present response fields. *)
Definition baseResponseFields (status bytes elapsed : Z) : list value :=
  [VStr "status"; VInt status; VStr "bytes"; VInt bytes;
   VStr "elapsed"; VFloat (float64_of_int64 elapsed / 1000000)%float].

(** The text of the [responseBody] field for a given [extra] argument. *)
Definition bodyText (extra : Extra) : string :=
  match extra with
  | ExtraBytes (Some b) => String.string_of_list_ascii b
  | ExtraBytes None | ExtraNil | ExtraOther _ => ""
  end.

(** A request used in the examples: [GET /] over plain HTTP with one
    [Authorization] header. *)
Definition request0 : Request :=
  {| TLS := false; Host := "example.com"; RequestURI := "/";
     Method := "GET"; URL_Path := "/"; RemoteAddr := "10.0.0.1:4242";
     Proto := "HTTP/1.1"; ReqID := "host/abc-000001";
     Req_Header := [("Authorization", ["Bearer xyz"])] |}.

(** The world after [Configure(Options{Concise: true})]. *)
Definition world_concise : World :=
  Configure world0
    {| Name := ""; Level := ""; JSONFormat := false; TimeFormat := "";
       Concise := true; Tags := None; SkipHeaders := nilSlice |}.

(** The entry of [request0], and the same entry after the recoverer has
    reported a panic with value ["boom"]. *)
Definition entry0 : RequestLoggerEntry :=
  NewLogEntry world_concise (hclog.IntLogger []) request0.

Definition entry0_panicked : RequestLoggerEntry :=
  (Panic world_concise entry0 "boom" "goroutine 1 [running]").2.

(** The flush of a 503 response in concise mode, read as: one call at
    Error level whose message is exactly ["503 Server Error"] and whose
    fields are status, bytes and elapsed. *)
Definition flush_503_concise_stated (w : World) (l : RequestLoggerEntry)
    (bytes : Z) (header : Header) (elapsed : Z) (extra : Extra) : Prop :=
  Concise (DefaultOptions w) = true ->
  logged (Write w l 503 bytes header elapsed extra) =
  logged w ++
    [ {| hclog.call_logger := Logger l;
         hclog.call_level := hclog.Error;
         hclog.call_msg := "503 Server Error";
         hclog.call_args := baseResponseFields 503 bytes elapsed |} ].

(** The fields [requestLogFields] always gives: requestURL, requestMethod,
    requestPath, remoteIP, proto, and requestID when the id is not empty. *)
Definition fixedFields (r : Request) : list value :=
  [VStr "requestURL";
     VStr (scheme_of r +:+ "://" +:+ Host r +:+ RequestURI r);
   VStr "requestMethod"; VStr (Method r);
   VStr "requestPath"; VStr (URL_Path r);
   VStr "remoteIP"; VStr (RemoteAddr r);
   VStr "proto"; VStr (Proto r)]
  ++ (if String.eqb (ReqID r) "" then []
      else [VStr "requestID"; VStr (ReqID r)]).

(** The scheme field and the redacted header fields, the latter only for a
    request with at least one header. *)
Definition verboseFields (w : World) (r : Request) : list value :=
  [VStr "scheme"; VStr (scheme_of r)]
  ++ (if (0 <? length (Req_Header r))%nat
      then headerLogField w (Req_Header r) else []).

(** Entry creation read as building the handle from the request fields with
    [concise] taken from the configuration: with concise off, the fields
    added to a logger that already holds [base] are the fixed fields, then
    the scheme and header fields. *)
Definition entry_fields_stated (w : World) (base : list value) (r : Request)
  : Prop :=
  Concise (DefaultOptions w) = false ->
  hclog.implied_of (Logger (NewLogEntry w (hclog.IntLogger base) r)) =
  base ++ fixedFields r ++ verboseFields w r.

(** The world after [Configure(Options{SkipHeaders: []string{"Cookie"}})],
    the slice's backing array being at address 1. *)
Definition world_skip_cookie : World :=
  Configure
    {| DefaultOptions := initialOptions;
       hclog_DefaultOptions := hclog_DefaultOptions world0;
       strArrays := {[ 1%positive := ["Cookie"] ]};
       entries := ∅;
       logged := [];
       prettyStacks := [] |}
    {| Name := ""; Level := ""; JSONFormat := false; TimeFormat := "";
       Concise := false; Tags := None; SkipHeaders := sliceAt 1%positive |}.

(** The double mask read for every header: whenever the lower-cased name of
    an entry [k, vs] of the map is both built-in sensitive and in the skip
    list, the output has, where the entry is visited, the value pair and
    then the mask pair twice. *)
Definition double_mask_stated (w : World) (m : gmap string (list string))
    (kvs : Header) (k : string) (vs : list string) : Prop :=
  ranges m kvs ->
  m !! k = Some vs ->
  isBuiltinSensitive (ToLower k) = true ->
  ToLower k ∈ skipHeaders w ->
  exists pre post,
    kvs = pre ++ (k, vs) :: post /\
    headerLogField w kvs =
      headerLogField w pre
      ++ [VStr (ToLower k); VStr (headerValue vs);
          VStr (ToLower k); mask; VStr (ToLower k); mask]
      ++ headerLogField w post.

(** A name is sensitive when it is one of the built-in names or an entry of
    the skip list. *)
Definition isSensitive (w : World) (k : string) : bool :=
  isBuiltinSensitive k || bool_decide (k ∈ skipHeaders w).

(** A header collection whose sensitive entries already hold the mask. *)
Definition maskedHeader (w : World) (header : Header) : Header :=
  map (fun kv : string * list string =>
         if isSensitive w (ToLower kv.1) then (kv.1, ["***"]) else kv)
      header.

(** Idempotence of redaction: redacting the masked collection gives the
    same pairs as redacting the original one. *)
Definition redaction_idempotent_stated (w : World) (header : Header) : Prop :=
  headerLogField w (maskedHeader w header) = headerLogField w header.

(** No leak: the value emitted for an entry with a sensitive name occurs
    nowhere in the redacted output. *)
Definition no_leak_stated (w : World) (header : Header) : Prop :=
  forall k vs,
    (k, vs) ∈ header ->
    vs <> [] ->
    isSensitive w (ToLower k) = true ->
    VStr (headerValue vs) ∉ headerLogField w header.

(** A header map with two entries, for the examples. *)
Definition header_cookie_accept : gmap string (list string) :=
  {[ "Cookie" := ["a=b"]; "Accept" := ["text/html"; "text/plain"] ]}.

(** The world after [Configure] with a skip list that names the same header
    twice: [[]string{"X-Token", "x-token"}], backing array at address 1. *)
Definition world_skip_twice : World :=
  Configure
    {| DefaultOptions := initialOptions;
       hclog_DefaultOptions := hclog_DefaultOptions world0;
       strArrays := {[ 1%positive := ["X-Token"; "x-token"] ]};
       entries := ∅;
       logged := [];
       prettyStacks := [] |}
    {| Name := "api"; Level := "debug"; JSONFormat := true; TimeFormat := "";
       Concise := false; Tags := None; SkipHeaders := sliceAt 1%positive |}.

(** ** httplog.go: [NewLogger]

    [hclog.L()] is the backend's global logger. The tags are a Go map and
    not one of the values above, so the result says which of the two
    return statements was taken: the global logger itself, or the global
    logger derived with the key ["tags"] and the configured map (a map
    value, which may be nil). *)
Inductive rootLogger : Type :=
  | hclog_L
  | hclog_L_With_tags (tags : option (gmap string string)).

(** [len(m)] of a [map[string]string]; the nil map has length 0. *)
Definition lenTags (t : option (gmap string string)) : nat :=
  match t with
  | None => O
  | Some m => size m
  end.

(** [NewLogger(opts...)]: only [opts[0]] is looked at; without arguments
    the current [DefaultOptions] are configured again. *)
Definition NewLogger (w : World) (opts : list Options) : World * rootLogger :=
  let w' :=
    match opts with
    | o :: _ => Configure w o
    | [] => Configure w (DefaultOptions w)
    end in
  if negb (Concise (DefaultOptions w')) && (0 <? lenTags (Tags (DefaultOptions w')))%nat
  then (w', hclog_L_With_tags (Tags (DefaultOptions w')))
  else (w', hclog_L).

(** ** httplog.go: [Handler]

    What the middleware finds when [next.ServeHTTP] is over: the world the
    downstream handlers left, the status, byte count and header of the
    wrapped response writer, the bytes [io.ReadAll] takes out of the tee
    buffer, and whether [next.ServeHTTP] panicked. *)
Record Served : Type := {
  sv_world : World;
  sv_Status : Z;
  sv_BytesWritten : Z;
  sv_Header : Header;
  sv_buf : list ascii;
  sv_panics : bool
}.

(** The downstream handler: it gets the world and what the request's
    context holds under [middleware.LogEntryCtxKey]. *)
Definition NextHandler := World -> ctxValue -> Request -> Served.

(** The handler function that [Handler(logger)(next)] returns, run on one
    request; [elapsed] is what [time.Since(t1)] reads in the deferred
    function. The new entry is allocated at a fresh address and put in the
    request's context; the deferred function runs whether or not
    [next.ServeHTTP] panics, and the panic, if any, goes on to the caller
    (the [bool] of the result). [None] only if the entry object is no longer
    in the store, which Go rules out. *)
Definition Handler (l : hclog.Logger) (next : NextHandler) (elapsed : Z)
    (w : World) (r : Request) : option (World * bool) :=
  let p : loc := fresh (dom (entries w)) in
  let w1 := set_entry w p (NewLogEntry w l r) in
  let sv := next w1 (CtxEntry (Some p)) r in
  entry ← entries (sv_world sv) !! p;
  Some (Handler_deferred (sv_world sv) entry (sv_Status sv)
          (sv_BytesWritten sv) (sv_Header sv) elapsed (sv_buf sv),
        sv_panics sv).

(** A downstream handler that sets the fields [fields] on the entry with
    [LogEntrySetFields], then one more with [LogEntrySetField], and answers
    with the given status and body. *)
Definition enrichingHandler (fields : list value) (key val : string)
    (status : Z) (body : list ascii) : NextHandler :=
  fun w ctx _ =>
    let w1 := default w (LogEntrySetFields w ctx fields) in
    let w2 := default w1 (LogEntrySetField w1 ctx key val) in
    {| sv_world := w2; sv_Status := status;
       sv_BytesWritten := Z.of_nat (length body); sv_Header := [];
       sv_buf := body; sv_panics := false |}.

(** ** More definitions used to state properties *)

(** A key/value argument list laid out flat. *)
Definition flatPairs (kvs : list (string * string)) : list value :=
  flat_map (fun kv : string * string => [VStr kv.1; VStr kv.2]) kvs.

(** A string without upper-case ASCII letters. *)
Definition isLower (s : string) : Prop := ToLower s = s.

(** A world in which a caller has built the slice [[]string{"X-Api-Key"}]
    (backing array at address 1), options that use it as skip list, and the
    world after [Configure] with these options. *)
Definition world_api_array : World :=
  {| DefaultOptions := initialOptions;
     hclog_DefaultOptions := hclog_DefaultOptions world0;
     strArrays := {[ 1%positive := ["X-Api-Key"] ]};
     entries := ∅;
     logged := [];
     prettyStacks := [] |}.

Definition options_api_key : Options :=
  {| Name := "svc"; Level := ""; JSONFormat := true; TimeFormat := "";
     Concise := false; Tags := Some {[ "env" := "dev" ]};
     SkipHeaders := sliceAt 1%positive |}.

Definition world_api_key : World := Configure world_api_array options_api_key.

(** A world whose [DefaultOptions.SkipHeaders] was assigned directly,
    without [Configure]: [[]string{"X-Token"}], backing array at address 1. *)
Definition world_assigned_skip : World :=
  {| DefaultOptions :=
       {| Name := ""; Level := "info"; JSONFormat := false;
          TimeFormat := RFC3339Nano; Concise := false; Tags := None;
          SkipHeaders := sliceAt 1%positive |};
     hclog_DefaultOptions := hclog_DefaultOptions world0;
     strArrays := {[ 1%positive := ["X-Token"] ]};
     entries := ∅;
     logged := [];
     prettyStacks := [] |}.

(** A world in which the entry of [request0] is stored at address 1. *)
Definition world_entry : World := set_entry world0 1%positive entry0.

(** ** Definitions for the lower-casing done by [Configure]

    Lower-casing of ASCII text said with the two alphabets: a byte that
    is the [n]-th upper-case letter becomes the [n]-th lower-case letter,
    any other byte stays. *)
Definition upperLetters : string := "ABCDEFGHIJKLMNOPQRSTUVWXYZ".
Definition lowerLetters : string := "abcdefghijklmnopqrstuvwxyz".

Fixpoint letterAt (c : ascii) (from to : string) : option ascii :=
  match from, to with
  | String f from', String t to' =>
      if Ascii.eqb c f then Some t else letterAt c from' to'
  | _, _ => None
  end.

Definition lowerLetterOf (c : ascii) : ascii :=
  default c (letterAt c upperLetters lowerLetters).

(** [t] is [s] with its upper-case ASCII letters made lower-case. *)
Definition lowerCaseOf (s t : string) : Prop :=
  String.list_ascii_of_string t
  = map lowerLetterOf (String.list_ascii_of_string s).

(** A string of ASCII bytes only. *)
Definition isASCII (s : string) : Prop :=
  Forall (fun c : ascii => (N_of_ascii c < 128)%N)
         (String.list_ascii_of_string s).

(** A world with an earlier configuration (concise, JSON, its own skip list
    at address 2) in which a caller has built the slice
    [[]string{"X-Token", "COOKIE", "accept"}] at address 1, and options
    that use that slice and leave level and time format empty. *)
Definition world_reconfigure : World :=
  {| DefaultOptions :=
       {| Name := "old"; Level := "debug"; JSONFormat := true;
          TimeFormat := "15:04:05"; Concise := true;
          Tags := Some {[ "env" := "dev" ]};
          SkipHeaders := sliceAt 2%positive |};
     hclog_DefaultOptions :=
       {| hclog.lo_Name := "old"; hclog.lo_LevelFrom := "debug";
          hclog.lo_TimeFormat := "15:04:05"; hclog.lo_JSONFormat := true |};
     strArrays :=
       {[ 1%positive := ["X-Token"; "COOKIE"; "accept"];
          2%positive := ["x-old"] ]};
     entries := ∅;
     logged := [];
     prettyStacks := [] |}.

Definition options_reconfigure : Options :=
  {| Name := "new"; Level := ""; JSONFormat := false; TimeFormat := "";
     Concise := false; Tags := None; SkipHeaders := sliceAt 1%positive |}.

(** ** Definition for the accessors without an entry

    The accessors read with "no entry" as [LogEntry] tests it
    ([!ok || entry == nil]): whenever the context does not hold a non-nil
    entry pointer, the setters return with the world unchanged and
    [LogEntry] returns the null logger. *)
Definition accessors_noop_stated (w : World) (ctx : ctxValue)
    (key val : string) (fields : list value) : Prop :=
  (forall p, ctx <> CtxEntry (Some p)) ->
  LogEntrySetField w ctx key val = Some w /\
  LogEntrySetFields w ctx fields = Some w /\
  LogEntry w ctx = Some hclog.NullLogger.

(** ** Properties: status classification *)

Example ToLower_ex : ToLower "Set-Cookie" = "set-cookie".
Proof. reflexivity. Qed.

Example Sprintf_d_ex :
  Sprintf_d 503 = "503" /\ Sprintf_d (-7) = "-7" /\ Sprintf_d 0 = "0".
Proof. repeat split; reflexivity. Qed.

Ltac case_status :=
  repeat match goal with
  | |- context [?a <=? ?b] => destruct (Z.leb_spec a b); simpl
  | |- context [?a <? ?b] => destruct (Z.ltb_spec a b); simpl
  end.

(** C3: [statusLevel] and [statusLabel] depend on the status code alone and
    follow the table: at most 0 gives Warn/"Unknown", 1..99 Info/"Unknown",
    100..299 Info/"OK", 300..399 Info/"Redirect", 400..499
    Warn/"Client Error", 500 and above Error/"Server Error". *)
Theorem statusLevel_statusLabel_table (s : Z) :
  (s <= 0 -> statusLevel s = hclog.Warn /\ statusLabel s = "Unknown") /\
  (1 <= s <= 99 -> statusLevel s = hclog.Info /\ statusLabel s = "Unknown") /\
  (100 <= s <= 299 -> statusLevel s = hclog.Info /\ statusLabel s = "OK") /\
  (300 <= s <= 399 -> statusLevel s = hclog.Info /\ statusLabel s = "Redirect") /\
  (400 <= s <= 499 ->
     statusLevel s = hclog.Warn /\ statusLabel s = "Client Error") /\
  (500 <= s -> statusLevel s = hclog.Error /\ statusLabel s = "Server Error").
Proof.
  unfold statusLevel, statusLabel.
  repeat split; intros; case_status; solve [reflexivity | lia].
Qed.

Lemma statusLevel_statusLabel_table_witness :
  (statusLevel 404 = hclog.Warn /\ statusLabel 404 = "Client Error") /\
  (statusLevel 0 = hclog.Warn /\ statusLabel 0 = "Unknown") /\
  (statusLevel 42 = hclog.Info /\ statusLabel 42 = "Unknown").
Proof.
  split; [|split].
  - apply (statusLevel_statusLabel_table 404). lia.
  - apply (statusLevel_statusLabel_table 0). lia.
  - apply (statusLevel_statusLabel_table 42). lia.
Defined.

(** ** Properties: the flush *)

(** C7: the elapsed field of every flush is the float64 quotient of the
    nanosecond count by 1,000,000; 1,500,000 ns give 1.5 and fractions of a
    millisecond are kept. *)
Theorem Write_elapsed_milliseconds (w : World) (l : RequestLoggerEntry)
    (status bytes : Z) (header : Header) (elapsed : Z) (extra : Extra) :
  (exists c,
     logged (Write w l status bytes header elapsed extra) = logged w ++ [c] /\
     hclog.call_args c !! 4%nat = Some (VStr "elapsed") /\
     hclog.call_args c !! 5%nat =
       Some (VFloat (float64_of_int64 elapsed / 1000000)%float)) /\
  responseLog w status bytes header 1500000 extra !! 5%nat
    = Some (VFloat 1.5%float) /\
  responseLog w status bytes header 250000 extra !! 5%nat
    = Some (VFloat 0.25%float).
Proof.
  assert (Hpre : forall e, exists rest,
    responseLog w status bytes header e extra
    = baseResponseFields status bytes e ++ rest).
  { intros e. unfold responseLog.
    destruct (Concise (DefaultOptions w)); simpl.
    - exists []. reflexivity.
    - destruct (400 <=? status); destruct (0 <? length header)%nat;
        eexists; rewrite <- ?app_assoc; reflexivity. }
  split; [|split].
  - eexists. split; [reflexivity|]. simpl.
    destruct (Hpre elapsed) as [rest ->]. split; reflexivity.
  - destruct (Hpre 1500000) as [rest ->]. reflexivity.
  - destruct (Hpre 250000) as [rest ->]. reflexivity.
Qed.

(** C10: with status at least 400 and concise off, the flush makes its one
    call and the [responseBody] field is there; when [extra] is the nil
    interface, a nil byte slice or not a byte slice at all, its value is the
    empty string. *)
Theorem Write_responseBody_always (w : World) (l : RequestLoggerEntry)
    (status bytes : Z) (header : Header) (elapsed : Z) (extra : Extra) :
  Concise (DefaultOptions w) = false ->
  400 <= status ->
  logged (Write w l status bytes header elapsed extra) =
    logged w ++
      [ {| hclog.call_logger := Logger l;
           hclog.call_level := statusLevel status;
           hclog.call_msg := writeMsg l status;
           hclog.call_args :=
             baseResponseFields status bytes elapsed
             ++ [VStr "responseBody"; VStr (bodyText extra)]
             ++ headerLogField w header |} ] /\
  (extra = ExtraNil \/ extra = ExtraBytes None \/ (exists v, extra = ExtraOther v) ->
   bodyText extra = "").
Proof.
  intros Hc Hs. split.
  - unfold Write, log_call, responseLog. simpl. rewrite Hc. simpl.
    destruct (Z.leb_spec 400 status) as [_|?]; [|lia].
    replace (string_of_bytes (assert_bytes extra)) with (bodyText extra)
      by (destruct extra as [|[b|]|v]; reflexivity).
    destruct header as [|kv header]; simpl.
    + reflexivity.
    + reflexivity.
  - intros [->|[->|[v ->]]]; reflexivity.
Qed.

Lemma Write_responseBody_always_witness :
  logged (Write world0 entry0 404 9 [] 1500000 ExtraNil) =
    [ {| hclog.call_logger := Logger entry0;
         hclog.call_level := hclog.Warn;
         hclog.call_msg := "404 Client Error";
         hclog.call_args :=
           [VStr "status"; VInt 404; VStr "bytes"; VInt 9;
            VStr "elapsed"; VFloat 1.5%float;
            VStr "responseBody"; VStr ""] |} ].
Proof.
  pose proof (Write_responseBody_always world0 entry0 404 9 [] 1500000 ExtraNil
                eq_refl ltac:(lia)) as [H _].
  exact H.
Defined.

Example Write_200 :
  logged (Write world0 entry0 200 13 [] 1500000 (ExtraBytes None)) =
    [ {| hclog.call_logger := Logger entry0;
         hclog.call_level := hclog.Info;
         hclog.call_msg := "200 OK";
         hclog.call_args :=
           [VStr "status"; VInt 200; VStr "bytes"; VInt 13;
            VStr "elapsed"; VFloat 1.5%float] |} ].
Proof. reflexivity. Qed.

Example Handler_deferred_404 :
  map hclog.call_args
    (logged (Handler_deferred world0 entry0 404 9 [] 250000
               (String.list_ascii_of_string "not found"))) =
    [ [VStr "status"; VInt 404; VStr "bytes"; VInt 9;
       VStr "elapsed"; VFloat 0.25%float;
       VStr "responseBody"; VStr "not found"] ].
Proof. reflexivity. Qed.

(** C5, as amended: in concise mode the flush of a 503 response makes
    exactly one call, at Error level, with the fields status, bytes and
    elapsed only; the message is "503 Server Error" when the entry holds no
    panic message and "503 Server Error - m" when [Panic] has stored [m]. *)
Theorem Write_503_concise (w : World) (l : RequestLoggerEntry)
    (bytes : Z) (header : Header) (elapsed : Z) (extra : Extra) :
  Concise (DefaultOptions w) = true ->
  logged (Write w l 503 bytes header elapsed extra) =
  logged w ++
    [ {| hclog.call_logger := Logger l;
         hclog.call_level := hclog.Error;
         hclog.call_msg :=
           if String.eqb (msg l) "" then "503 Server Error"
           else "503 Server Error - " +:+ msg l;
         hclog.call_args := baseResponseFields 503 bytes elapsed |} ].
Proof.
  intros Hc. unfold Write, log_call, responseLog, writeMsg. simpl.
  rewrite Hc. simpl.
  destruct (String.eqb (msg l) ""); reflexivity.
Qed.

Lemma Write_503_concise_witness :
  logged (Write world_concise entry0 503 13 request0.(Req_Header) 1500000
            (ExtraBytes (Some []))) =
    [ {| hclog.call_logger := Logger entry0;
         hclog.call_level := hclog.Error;
         hclog.call_msg := "503 Server Error";
         hclog.call_args :=
           [VStr "status"; VInt 503; VStr "bytes"; VInt 13;
            VStr "elapsed"; VFloat 1.5%float] |} ].
Proof.
  exact (Write_503_concise world_concise entry0 13 request0.(Req_Header) 1500000
           (ExtraBytes (Some [])) eq_refl).
Defined.

(** C5, as stated, fails on an entry whose panic message is set: the
    message of the call is "503 Server Error - boom". *)
Lemma flush_503_concise_stated_fails :
  ~ flush_503_concise_stated world_concise entry0_panicked 13 [] 1500000
      ExtraNil.
Proof.
  unfold flush_503_concise_stated. intros H.
  specialize (H eq_refl). vm_compute in H. discriminate H.
Qed.

(** ** Properties: the context accessors *)

(** Where the type assertion of the accessors fails (nothing stored under
    the key, or a value of another type), the two setters return normally
    and leave the world as it was, and [LogEntry] returns the null logger,
    on which [With] has no effect. *)
Theorem accessors_without_entry (w : World) (ctx : ctxValue)
    (key val : string) (fields : list value) :
  ctx = CtxAbsent \/ (exists v, ctx = CtxForeign v) ->
  LogEntrySetField w ctx key val = Some w /\
  LogEntrySetFields w ctx fields = Some w /\
  LogEntry w ctx = Some hclog.NullLogger /\
  (forall args, hclog.With hclog.NullLogger args = hclog.NullLogger).
Proof.
  intros [-> | [v ->]]; repeat split; reflexivity.
Qed.

Lemma accessors_without_entry_witness :
  LogEntrySetField world0 CtxAbsent "user" "alice" = Some world0 /\
  LogEntrySetFields world0 (CtxForeign (VInt 7)) [VStr "user"; VStr "alice"]
    = Some world0 /\
  LogEntry world0 CtxAbsent = Some hclog.NullLogger.
Proof.
  split; [|split].
  - apply (accessors_without_entry world0 CtxAbsent "user" "alice" []).
    left; reflexivity.
  - apply (accessors_without_entry world0 (CtxForeign (VInt 7)) "" ""
             [VStr "user"; VStr "alice"]).
    right; eexists; reflexivity.
  - apply (accessors_without_entry world0 CtxAbsent "" "" []).
    left; reflexivity.
Defined.

(** C8: on a context that holds the nil [*RequestLoggerEntry] pointer,
    [LogEntry] takes it for no entry and returns the null logger, but the
    two setters, which lack the [entry == nil] test, dereference the pointer
    and panic; so the setters do raise on a context without an entry. *)
Theorem setters_panic_on_nil_entry (w : World) (key val : string)
    (fields : list value) :
  LogEntry w (CtxEntry None) = Some hclog.NullLogger /\
  LogEntrySetField w (CtxEntry None) key val = None /\
  LogEntrySetFields w (CtxEntry None) fields = None /\
  ~ accessors_noop_stated w (CtxEntry None) key val fields.
Proof.
  split; [reflexivity|]. split; [reflexivity|]. split; [reflexivity|].
  unfold accessors_noop_stated. intros H.
  destruct H as (H & _); [intros p Hp; discriminate Hp|].
  discriminate H.
Qed.

(** With an entry in the context, the setter replaces its logger. *)
Lemma LogEntrySetField_stored (w : World) (p : loc) (e : RequestLoggerEntry)
    (key val : string) :
  entries w !! p = Some e ->
  exists w',
    LogEntrySetField w (CtxEntry (Some p)) key val = Some w' /\
    LogEntry w' (CtxEntry (Some p))
      = Some (hclog.With (Logger e) [VStr key; VStr val]).
Proof.
  intros He. unfold LogEntrySetField. rewrite He. simpl.
  eexists. split; [reflexivity|].
  unfold LogEntry, set_entry. simpl. rewrite lookup_insert_eq. reflexivity.
Qed.

(** ** Properties: configuration *)

Lemma lowerFrom_spec (rest pre : list string) :
  lowerFrom (pre ++ rest) (length pre) (length rest) = pre ++ map ToLower rest.
Proof.
  revert pre. induction rest as [|a rest IH]; intros pre; simpl.
  - reflexivity.
  - rewrite list_lookup_middle by reflexivity.
    rewrite insert_app_r_alt by lia.
    replace (length pre - length pre)%nat with O by lia. simpl.
    specialize (IH (pre ++ [ToLower a])).
    rewrite length_app, <- app_assoc in IH. simpl in IH.
    replace (length pre + 1)%nat with (S (length pre)) in IH by lia.
    rewrite IH, <- app_assoc. reflexivity.
Qed.

Lemma lowerInPlace_map (arr : list string) :
  lowerInPlace arr = map ToLower arr.
Proof. exact (lowerFrom_spec arr []). Qed.

(** ** Properties: header redaction *)

Lemma skipLoop_acc (k : string) (skips : list string) (acc : list value) :
  skipLoop k skips acc =
  acc ++ (if bool_decide (k ∈ skips) then [VStr k; mask] else []).
Proof.
  induction skips as [|skip rest IH]; cbn [skipLoop].
  - rewrite bool_decide_eq_false_2 by apply not_elem_of_nil.
    symmetry. apply app_nil_r.
  - destruct (String.eqb_spec k skip) as [->|Hne].
    + rewrite bool_decide_eq_true_2 by apply list_elem_of_here. reflexivity.
    + rewrite IH. f_equal.
      destruct (decide (k ∈ rest)) as [Hin|Hnin].
      * rewrite !bool_decide_eq_true_2; [reflexivity| |assumption].
        apply list_elem_of_further; assumption.
      * rewrite !bool_decide_eq_false_2; [reflexivity| |assumption].
        intros [?|?]%elem_of_cons; congruence.
Qed.

(** What one visited entry with at least one value adds to the output. *)
Lemma headerStep_nonempty (skips : list string) (acc : list value)
    (k : string) (vs : list string) :
  vs <> [] ->
  headerStep skips acc (k, vs) =
  acc ++ [VStr (ToLower k); VStr (headerValue vs)]
      ++ (if isBuiltinSensitive (ToLower k) then [VStr (ToLower k); mask] else [])
      ++ (if bool_decide (ToLower k ∈ skips) then [VStr (ToLower k); mask] else []).
Proof.
  intros Hne. destruct vs as [|v0 more]; [congruence|].
  unfold headerStep. cbn [fst snd]. rewrite skipLoop_acc.
  destruct more as [|v1 more]; cbn [headerValue];
    destruct (isBuiltinSensitive (ToLower k));
    rewrite <- ?app_assoc; reflexivity.
Qed.

Lemma headerStep_empty (skips : list string) (acc : list value) (k : string) :
  headerStep skips acc (k, []) = acc.
Proof. reflexivity. Qed.

Lemma headerStep_acc (skips : list string) (acc : list value)
    (kv : string * list string) :
  headerStep skips acc kv = acc ++ headerStep skips [] kv.
Proof.
  destruct kv as [k [|v0 more]].
  - rewrite !headerStep_empty. symmetry. apply app_nil_r.
  - rewrite !headerStep_nonempty by discriminate. reflexivity.
Qed.

Lemma fold_headerStep_acc (skips : list string) (header : Header)
    (acc : list value) :
  fold_left (headerStep skips) header acc =
  acc ++ fold_left (headerStep skips) header [].
Proof.
  revert acc. induction header as [|kv header IH]; intros acc; simpl.
  - symmetry. apply app_nil_r.
  - rewrite IH, (IH (headerStep skips [] kv)), headerStep_acc, app_assoc.
    reflexivity.
Qed.

Lemma headerLogField_app (w : World) (h1 h2 : Header) :
  headerLogField w (h1 ++ h2) = headerLogField w h1 ++ headerLogField w h2.
Proof.
  unfold headerLogField. rewrite fold_left_app. apply fold_headerStep_acc.
Qed.

Lemma headerLogField_cons (w : World) (kv : string * list string) (h : Header) :
  headerLogField w (kv :: h) =
  headerStep (skipHeaders w) [] kv ++ headerLogField w h.
Proof.
  unfold headerLogField. simpl. apply fold_headerStep_acc.
Qed.

(** Every visit of a map passes each of its entries. *)
Lemma ranges_split (m : gmap string (list string)) (kvs : Header)
    (k : string) (vs : list string) :
  ranges m kvs -> m !! k = Some vs ->
  exists pre post, kvs = pre ++ (k, vs) :: post.
Proof.
  unfold ranges. intros Hp Hk.
  apply list_elem_of_split. rewrite Hp.
  apply elem_of_map_to_list. exact Hk.
Qed.

Lemma ranges_map_to_list (m : gmap string (list string)) :
  ranges m (map_to_list m).
Proof. unfold ranges. reflexivity. Qed.


Lemma skipHeaders_world_skip_cookie : skipHeaders world_skip_cookie = ["cookie"].
Proof. reflexivity. Qed.



(** Whatever the configuration, the value of every visited entry that has
    one is in the output. *)
Lemma headerLogField_keeps_value (w : World) (header : Header)
    (k : string) (vs : list string) :
  (k, vs) ∈ header -> vs <> [] ->
  VStr (headerValue vs) ∈ headerLogField w header.
Proof.
  intros Hin Hne.
  apply list_elem_of_split in Hin as (pre & post & ->).
  rewrite headerLogField_app, headerLogField_cons.
  rewrite headerStep_nonempty by assumption.
  apply elem_of_app. right. apply elem_of_app. left.
  simpl. apply list_elem_of_further, list_elem_of_here.
Qed.

Example headerLogField_several_values :
  headerLogField world0 [("Accept", ["text/html"; "text/plain"]); ("X-Empty", [])]
  = [VStr "accept"; VStr "[text/html], [text/plain]"].
Proof. reflexivity. Qed.

Example headerLogField_skip_twice :
  skipHeaders world_skip_twice = ["x-token"; "x-token"] /\
  headerLogField world_skip_twice [("X-Token", ["s3cr3t"])]
  = [VStr "x-token"; VStr "s3cr3t"; VStr "x-token"; mask].
Proof. split; reflexivity. Qed.

(** C1: on a request with the header [Authorization: Bearer xyz] under the
    initial configuration the output is the name with the token, then the
    name with the mask; the token is in the returned sequence. *)
Theorem headerLogField_keeps_token :
  ranges {[ "Authorization" := ["Bearer xyz"] ]} (Req_Header request0) /\
  headerLogField world0 (Req_Header request0) =
    [VStr "authorization"; VStr "Bearer xyz"; VStr "authorization"; mask] /\
  ~ no_leak_stated world0 (Req_Header request0).
Proof.
  split; [|split].
  - unfold ranges. rewrite map_to_list_singleton. reflexivity.
  - reflexivity.
  - intros H.
    apply (H "Authorization" ["Bearer xyz"]).
    + apply list_elem_of_here.
    + discriminate.
    + reflexivity.
    + apply list_elem_of_further, list_elem_of_here.
Qed.

(** C4: redacting [Cookie: a=b] gives the name with the value and then with
    the mask, redacting the masked collection [Cookie: ***] gives the mask
    twice; the two outputs differ. *)
Theorem headerLogField_masked_differs :
  headerLogField world0 [("Cookie", ["a=b"])] =
    [VStr "cookie"; VStr "a=b"; VStr "cookie"; mask] /\
  maskedHeader world0 [("Cookie", ["a=b"])] = [("Cookie", ["***"])] /\
  headerLogField world0 (maskedHeader world0 [("Cookie", ["a=b"])]) =
    [VStr "cookie"; mask; VStr "cookie"; mask] /\
  ~ redaction_idempotent_stated world0 [("Cookie", ["a=b"])].
Proof.
  repeat split; try reflexivity.
  unfold redaction_idempotent_stated. intros H.
  vm_compute in H. discriminate H.
Qed.

(** ** Properties: entry creation *)

Lemma requestLogFields_concise (w : World) (r : Request) :
  requestLogFields w r true = fixedFields r.
Proof.
  unfold requestLogFields, fixedFields.
  destruct (String.eqb (ReqID r) ""); reflexivity.
Qed.

Lemma requestLogFields_verbose (w : World) (r : Request) :
  requestLogFields w r false = fixedFields r ++ verboseFields w r.
Proof.
  unfold requestLogFields, fixedFields, verboseFields.
  destruct (String.eqb (ReqID r) ""); simpl;
    destruct (0 <? length (Req_Header r))%nat; simpl;
    rewrite <- ?app_assoc; reflexivity.
Qed.

(** C2, as amended: entry creation derives the handle with
    [requestLogFields(r, true)] whatever the configured concise flag is, so
    the fields of a new entry are exactly the fixed fields; the scheme field
    and, for a request with at least one header, the redacted header fields
    follow the fixed fields in [requestLogFields(r, false)]. *)
Theorem NewLogEntry_fixed_fields (w : World) (l : hclog.Logger) (r : Request) :
  NewLogEntry w l r = {| Logger := hclog.With l (fixedFields r); msg := "" |} /\
  requestLogFields w r true = fixedFields r /\
  requestLogFields w r false = fixedFields r ++ verboseFields w r.
Proof.
  unfold NewLogEntry.
  rewrite requestLogFields_concise, requestLogFields_verbose.
  repeat split; reflexivity.
Qed.

(** C2, as stated, fails: with concise off the entry of [request0] has no
    scheme field and no header fields. *)
Lemma entry_fields_stated_fails : ~ entry_fields_stated world0 [] request0.
Proof.
  unfold entry_fields_stated. intros H. specialize (H eq_refl).
  vm_compute in H. discriminate H.
Qed.

(** ** Further properties: lower-casing and configuration *)

Lemma lowerByte_idem (c : ascii) : lowerByte (lowerByte c) = lowerByte c.
Proof. destruct c as [[] [] [] [] [] [] [] []]; reflexivity. Qed.

Lemma ToLower_idem (s : string) : ToLower (ToLower s) = ToLower s.
Proof.
  induction s as [|c s IH]; simpl; [reflexivity|].
  rewrite lowerByte_idem, IH. reflexivity.
Qed.

Lemma map_ToLower_idem (l : list string) :
  map ToLower (map ToLower l) = map ToLower l.
Proof.
  rewrite map_map. apply map_ext. intros s. apply ToLower_idem.
Qed.

Lemma Configure_Level (w : World) (opts : Options) :
  Level (DefaultOptions (Configure w opts)) =
  if String.eqb (Level opts) "" then "info" else Level opts.
Proof.
  unfold Configure. simpl. destruct opts as [n lv js tf co tg sk]. simpl.
  destruct (String.eqb lv ""); simpl; destruct (String.eqb tf ""); reflexivity.
Qed.

Lemma Configure_TimeFormat (w : World) (opts : Options) :
  TimeFormat (DefaultOptions (Configure w opts)) =
  if String.eqb (TimeFormat opts) "" then RFC3339Nano else TimeFormat opts.
Proof.
  unfold Configure. simpl. destruct opts as [n lv js tf co tg sk]. simpl.
  destruct (String.eqb lv ""); simpl; destruct (String.eqb tf ""); reflexivity.
Qed.

Lemma Configure_other_fields (w : World) (opts : Options) :
  Name (DefaultOptions (Configure w opts)) = Name opts /\
  JSONFormat (DefaultOptions (Configure w opts)) = JSONFormat opts /\
  Concise (DefaultOptions (Configure w opts)) = Concise opts /\
  Tags (DefaultOptions (Configure w opts)) = Tags opts /\
  SkipHeaders (DefaultOptions (Configure w opts)) = SkipHeaders opts.
Proof.
  unfold Configure. simpl. destruct opts as [n lv js tf co tg sk]. simpl.
  destruct (String.eqb lv ""); simpl; destruct (String.eqb tf "");
    repeat split; reflexivity.
Qed.

Lemma Configure_strArrays (w : World) (opts : Options) :
  strArrays (Configure w opts) =
  match SkipHeaders opts with
  | nilSlice => strArrays w
  | sliceAt p => alter (map ToLower) p (strArrays w)
  end.
Proof.
  unfold Configure. simpl. destruct opts as [n lv js tf co tg sk]. simpl.
  destruct (String.eqb lv ""); simpl; destruct (String.eqb tf ""); simpl;
    destruct sk as [|p]; try reflexivity;
    apply alter_ext; intros; apply lowerInPlace_map.
Qed.

Lemma skipHeaders_Configure (w : World) (opts : Options) :
  skipHeaders (Configure w opts) = map ToLower (elems w (SkipHeaders opts)).
Proof.
  unfold skipHeaders, elems.
  destruct (Configure_other_fields w opts) as (_ & _ & _ & _ & ->).
  rewrite Configure_strArrays.
  destruct (SkipHeaders opts) as [|p]; [reflexivity|].
  rewrite lookup_alter_eq. destruct (strArrays w !! p); reflexivity.
Qed.

(** X1: after [Configure] no skip list entry has an upper-case letter, the
    level and the time format are not empty, and the backend's options
    hold the same name, level, time format and JSON flag as the
    configuration. *)
Theorem Configure_invariants (w : World) (opts : Options) :
  let w' := Configure w opts in
  (forall s, s ∈ skipHeaders w' -> isLower s) /\
  Level (DefaultOptions w') <> "" /\
  TimeFormat (DefaultOptions w') <> "" /\
  hclog.lo_Name (hclog_DefaultOptions w') = Name (DefaultOptions w') /\
  hclog.lo_LevelFrom (hclog_DefaultOptions w') = Level (DefaultOptions w') /\
  hclog.lo_TimeFormat (hclog_DefaultOptions w') = TimeFormat (DefaultOptions w') /\
  hclog.lo_JSONFormat (hclog_DefaultOptions w') = JSONFormat (DefaultOptions w').
Proof.
  cbv zeta. split; [|split; [|split]].
  - intros s. rewrite skipHeaders_Configure.
    intros (s0 & -> & _)%list_elem_of_fmap. apply ToLower_idem.
  - rewrite Configure_Level.
    destruct (String.eqb_spec (Level opts) ""); [discriminate|assumption].
  - rewrite Configure_TimeFormat.
    destruct (String.eqb_spec (TimeFormat opts) ""); [discriminate|assumption].
  - repeat split; reflexivity.
Qed.

(** X2: [Configure] touches nothing but the backing array of the skip list
    it is given: the other arrays, the entries and the calls logged so far
    stay, and the array keeps its length. *)
Theorem Configure_frame (w : World) (opts : Options) :
  let w' := Configure w opts in
  entries w' = entries w /\
  logged w' = logged w /\
  prettyStacks w' = prettyStacks w /\
  (forall q, SkipHeaders opts <> sliceAt q ->
             strArrays w' !! q = strArrays w !! q) /\
  length (elems w' (SkipHeaders opts)) = length (elems w (SkipHeaders opts)).
Proof.
  cbv zeta. split; [reflexivity|]. split; [reflexivity|].
  split; [reflexivity|]. split.
  - intros q Hq. rewrite Configure_strArrays.
    destruct (SkipHeaders opts) as [|p]; [reflexivity|].
    apply lookup_alter_ne. congruence.
  - pose proof (skipHeaders_Configure w opts) as H.
    unfold skipHeaders in H.
    destruct (Configure_other_fields w opts) as (_ & _ & _ & _ & Hs).
    rewrite Hs in H. rewrite H. apply length_map.
Qed.

Lemma Configure_idem (w : World) (opts : Options) :
  Configure (Configure w opts) (DefaultOptions (Configure w opts)) =
  Configure w opts.
Proof.
  set (w1 := Configure w opts).
  assert (HL : String.eqb (Level (DefaultOptions w1)) "" = false).
  { unfold w1. rewrite Configure_Level.
    destruct (String.eqb_spec (Level opts) "") as [|Hne]; [reflexivity|].
    apply String.eqb_neq. exact Hne. }
  assert (HT : String.eqb (TimeFormat (DefaultOptions w1)) "" = false).
  { unfold w1. rewrite Configure_TimeFormat.
    destruct (String.eqb_spec (TimeFormat opts) "") as [|Hne]; [reflexivity|].
    apply String.eqb_neq. exact Hne. }
  assert (HA : strArrays (Configure w1 (DefaultOptions w1)) = strArrays w1).
  { rewrite Configure_strArrays.
    unfold w1 at 1.
    destruct (Configure_other_fields w opts) as (_ & _ & _ & _ & ->).
    unfold w1. rewrite Configure_strArrays.
    destruct (SkipHeaders opts) as [|p]; [reflexivity|].
    rewrite alter_alter_eq. apply alter_ext. intros l _. simpl.
    apply map_ToLower_idem. }
  assert (HH : hclog_DefaultOptions w1 =
    {| hclog.lo_Name := Name (DefaultOptions w1);
       hclog.lo_LevelFrom := Level (DefaultOptions w1);
       hclog.lo_TimeFormat := TimeFormat (DefaultOptions w1);
       hclog.lo_JSONFormat := JSONFormat (DefaultOptions w1) |}) by reflexivity.
  destruct w1 as [o h a e lg ps] eqn:Ew. simpl in *.
  unfold Configure in HA |- *. simpl in HA |- *.
  rewrite HL. simpl. rewrite HT. simpl.
  rewrite HL in HA. simpl in HA. rewrite HT in HA. simpl in HA.
  rewrite HA, HH. reflexivity.
Qed.

(** X3: [NewLogger()] without options, called in a world that [Configure]
    produced, changes nothing: configuring the current options again is a
    no-op; and it returns the tagged logger exactly when concise is off and
    there is at least one tag. *)
Theorem NewLogger_no_options_after_Configure (w : World) (opts : Options) :
  let w1 := Configure w opts in
  (NewLogger w1 []).1 = w1 /\
  (NewLogger w1 []).2 =
    if negb (Concise opts) && (0 <? lenTags (Tags opts))%nat
    then hclog_L_With_tags (Tags opts) else hclog_L.
Proof.
  cbv zeta. unfold NewLogger. rewrite Configure_idem.
  destruct (Configure_other_fields w opts) as (_ & _ & -> & -> & _).
  destruct (negb (Concise opts) && (0 <? lenTags (Tags opts))%nat);
    split; reflexivity.
Qed.

(** X4: [NewLogger(o, ...)] configures with the first option only; in
    concise mode, or without tags, it returns the plain global logger, and
    the tags it attaches otherwise are a non-empty map. *)
Theorem NewLogger_first_option (w : World) (o : Options) (rest : list Options) :
  (NewLogger w (o :: rest)).1 = Configure w o /\
  (Concise o = true -> (NewLogger w (o :: rest)).2 = hclog_L) /\
  (lenTags (Tags o) = O -> (NewLogger w (o :: rest)).2 = hclog_L) /\
  (forall t, (NewLogger w (o :: rest)).2 = hclog_L_With_tags t ->
     Concise o = false /\ t = Tags o /\ exists m, t = Some m /\ m <> ∅).
Proof.
  unfold NewLogger.
  destruct (Configure_other_fields w o) as (_ & _ & -> & -> & _).
  destruct (negb (Concise o) && (0 <? lenTags (Tags o))%nat) eqn:Ec; simpl.
  - apply andb_true_iff in Ec as [Hc Ht].
    apply negb_true_iff in Hc. apply Nat.ltb_lt in Ht.
    split; [reflexivity|]. split; [intros; congruence|].
    split; [intros; lia|].
    intros t [= <-]. split; [assumption|]. split; [reflexivity|].
    destruct (Tags o) as [m|]; simpl in Ht; [|lia].
    exists m. split; [reflexivity|].
    intros ->. rewrite map_size_empty in Ht. lia.
  - split; [reflexivity|]. split; [reflexivity|]. split; [reflexivity|].
    intros t H. discriminate H.
Qed.

Lemma NewLogger_first_option_witness :
  (NewLogger world0 [DefaultOptions world_concise; initialOptions]).2 = hclog_L.
Proof.
  apply (NewLogger_first_option world0 (DefaultOptions world_concise)
           [initialOptions]).
  reflexivity.
Defined.

(** ** Further properties: header redaction *)

Lemma flatPairs_app (a b : list (string * string)) :
  flatPairs (a ++ b) = flatPairs a ++ flatPairs b.
Proof. unfold flatPairs. apply flat_map_app. Qed.

Lemma headerStep_pairs (skips : list string) (k : string) (vs : list string) :
  exists pairs,
    headerStep skips [] (k, vs) = flatPairs pairs /\
    Forall (fun kv : string * string =>
              vs <> [] /\ kv.1 = ToLower k /\
              (kv.2 = headerValue vs \/ kv.2 = "***")) pairs.
Proof.
  destruct vs as [|v0 more].
  - exists []. split; [reflexivity|constructor].
  - rewrite headerStep_nonempty by discriminate.
    set (vs := v0 :: more).
    exists ([(ToLower k, headerValue vs)]
            ++ (if isBuiltinSensitive (ToLower k) then [(ToLower k, "***")] else [])
            ++ (if bool_decide (ToLower k ∈ skips) then [(ToLower k, "***")] else [])).
    split.
    + rewrite !flatPairs_app.
      destruct (isBuiltinSensitive (ToLower k));
        destruct (bool_decide (ToLower k ∈ skips)); reflexivity.
    + assert (Hne : vs <> []) by discriminate.
      apply Forall_app. split; [|apply Forall_app; split].
      * constructor; [|constructor].
        split; [assumption|]. split; [reflexivity|]. left; reflexivity.
      * destruct (isBuiltinSensitive (ToLower k)); [|constructor].
        constructor; [|constructor].
        split; [assumption|]. split; [reflexivity|]. right; reflexivity.
      * destruct (bool_decide (ToLower k ∈ skips)); [|constructor].
        constructor; [|constructor].
        split; [assumption|]. split; [reflexivity|]. right; reflexivity.
Qed.

(** X5: the output of [headerLogField] is a flat list of string key/value
    pairs; every key is the lower-cased name of a header that has at least
    one value, and the value paired with it is that header's value or the
    mask. *)
Theorem headerLogField_pairs (w : World) (header : Header) :
  exists pairs,
    headerLogField w header = flatPairs pairs /\
    Forall (fun kv : string * string =>
              isLower kv.1 /\
              exists name vs,
                (name, vs) ∈ header /\ vs <> [] /\ kv.1 = ToLower name /\
                (kv.2 = headerValue vs \/ kv.2 = "***")) pairs.
Proof.
  induction header as [|[k vs] header (pairs & Hout & Hall)].
  - exists []. split; [reflexivity|constructor].
  - destruct (headerStep_pairs (skipHeaders w) k vs) as (ps & Hps & Hfa).
    exists (ps ++ pairs). split.
    + rewrite headerLogField_cons, Hps, Hout, flatPairs_app. reflexivity.
    + apply Forall_app. split.
      * eapply Forall_impl; [exact Hfa|].
        intros [a b] (Hne & Ha & Hb). simpl in *. split.
        -- unfold isLower. rewrite Ha. apply ToLower_idem.
        -- exists k, vs. split; [apply list_elem_of_here|]. auto.
      * eapply Forall_impl; [exact Hall|].
        intros [a b] (Hl & name & vs' & Hin & Hrest). split; [assumption|].
        exists name, vs'. split; [apply list_elem_of_further; assumption|].
        assumption.
Qed.

Lemma headerLogField_bind (w : World) (header : Header) :
  headerLogField w header = header ≫= headerStep (skipHeaders w) [].
Proof.
  induction header as [|kv header IH]; [reflexivity|].
  rewrite headerLogField_cons, IH. reflexivity.
Qed.

(** X6: the order in which the header map is visited only permutes the
    output: two visits of the same map give the same elements the same
    number of times. *)
Theorem headerLogField_permutation (w : World) (m : gmap string (list string))
    (kvs1 kvs2 : Header) :
  ranges m kvs1 -> ranges m kvs2 ->
  headerLogField w kvs1 ≡ₚ headerLogField w kvs2.
Proof.
  unfold ranges. intros H1 H2.
  rewrite !headerLogField_bind.
  apply bind_Permutation. rewrite H1, H2. reflexivity.
Qed.

Lemma headerLogField_permutation_witness :
  headerLogField world_skip_cookie (map_to_list header_cookie_accept)
  ≡ₚ headerLogField world_skip_cookie (reverse (map_to_list header_cookie_accept)).
Proof.
  apply (headerLogField_permutation world_skip_cookie header_cookie_accept).
  - apply ranges_map_to_list.
  - unfold ranges. apply reverse_Permutation.
Defined.

(** X7: a header with values whose lower-cased name is neither built-in
    sensitive nor in the skip list adds its name and value and no mask. *)
Theorem headerLogField_unmasked (w : World) (pre post : Header)
    (k : string) (vs : list string) :
  vs <> [] ->
  isSensitive w (ToLower k) = false ->
  headerLogField w (pre ++ (k, vs) :: post) =
    headerLogField w pre
    ++ [VStr (ToLower k); VStr (headerValue vs)]
    ++ headerLogField w post.
Proof.
  intros Hne Hs. unfold isSensitive in Hs.
  apply orb_false_iff in Hs as [Hb Hk].
  rewrite headerLogField_app, headerLogField_cons.
  rewrite headerStep_nonempty by assumption.
  rewrite Hb, Hk. reflexivity.
Qed.

Lemma headerLogField_unmasked_witness :
  headerLogField world_skip_cookie
    ([("Cookie", ["a=b"])] ++ ("User-Agent", ["curl/8"]) :: []) =
  [VStr "cookie"; VStr "a=b"; VStr "cookie"; mask; VStr "cookie"; mask]
  ++ [VStr "user-agent"; VStr "curl/8"] ++ [].
Proof.
  exact (headerLogField_unmasked world_skip_cookie [("Cookie", ["a=b"])] []
           "User-Agent" ["curl/8"] ltac:(discriminate) eq_refl).
Defined.

(** X8: a skip list entry that has an upper-case letter never matches: in a
    world where no skip entry is lower-case (the list was assigned without
    [Configure]), a header gets no mask from the skip list, even if its
    name is spelled exactly like an entry. *)
Theorem headerLogField_skip_needs_lower (w : World) (pre post : Header)
    (k : string) (vs : list string) :
  (forall s, s ∈ skipHeaders w -> ~ isLower s) ->
  vs <> [] ->
  headerLogField w (pre ++ (k, vs) :: post) =
    headerLogField w pre
    ++ [VStr (ToLower k); VStr (headerValue vs)]
    ++ (if isBuiltinSensitive (ToLower k) then [VStr (ToLower k); mask] else [])
    ++ headerLogField w post.
Proof.
  intros Hup Hne.
  rewrite headerLogField_app, headerLogField_cons.
  rewrite headerStep_nonempty by assumption.
  rewrite bool_decide_eq_false_2.
  - rewrite <- !app_assoc. reflexivity.
  - intros Hin. apply (Hup _ Hin). apply ToLower_idem.
Qed.

Lemma skipHeaders_world_assigned_skip :
  skipHeaders world_assigned_skip = ["X-Token"].
Proof. reflexivity. Qed.

Lemma headerLogField_skip_needs_lower_witness :
  headerLogField world_assigned_skip ([] ++ ("X-Token", ["s3cr3t"]) :: []) =
  [] ++ [VStr "x-token"; VStr "s3cr3t"] ++ [] ++ [].
Proof.
  apply (headerLogField_skip_needs_lower world_assigned_skip [] []
           "X-Token" ["s3cr3t"]).
  - rewrite skipHeaders_world_assigned_skip.
    intros s ->%list_elem_of_singleton. discriminate.
  - discriminate.
Defined.

(** X9: after [Configure], skip list matching ignores case: a header whose
    name equals, up to case, an entry of the skip list handed to
    [Configure] gets the mask pair after its value pair. *)
Theorem Configure_masks_ignoring_case (w : World) (opts : Options)
    (s : string) (pre post : Header) (k : string) (vs : list string) :
  s ∈ elems w (SkipHeaders opts) ->
  ToLower k = ToLower s ->
  vs <> [] ->
  let w' := Configure w opts in
  headerLogField w' (pre ++ (k, vs) :: post) =
    headerLogField w' pre
    ++ [VStr (ToLower k); VStr (headerValue vs)]
    ++ (if isBuiltinSensitive (ToLower k) then [VStr (ToLower k); mask] else [])
    ++ [VStr (ToLower k); mask]
    ++ headerLogField w' post.
Proof.
  intros Hs Hk Hne. cbv zeta.
  rewrite headerLogField_app, headerLogField_cons.
  rewrite headerStep_nonempty by assumption.
  rewrite bool_decide_eq_true_2.
  - rewrite <- !app_assoc. reflexivity.
  - rewrite skipHeaders_Configure, Hk.
    apply list_elem_of_fmap. exists s. split; [reflexivity|assumption].
Qed.

Lemma Configure_masks_ignoring_case_witness :
  headerLogField world_api_key ([] ++ ("x-API-key", ["k-123"]) :: []) =
  headerLogField world_api_key []
  ++ [VStr "x-api-key"; VStr "k-123"] ++ []
  ++ [VStr "x-api-key"; mask] ++ headerLogField world_api_key [].
Proof.
  apply (Configure_masks_ignoring_case world_api_array options_api_key
           "X-Api-Key" [] [] "x-API-key" ["k-123"]).
  - apply list_elem_of_here.
  - reflexivity.
  - discriminate.
Defined.

(** ** Further properties: status, field lists *)

(** X10: level and label agree: Error goes with "Server Error" and with
    codes from 500 on; "Client Error" is the range 400..499; Warn is that
    range and the codes up to 0; "Unknown" is every code below 100; and no
    code is logged below Info. *)
Theorem statusLevel_statusLabel_agree (s : Z) :
  (statusLevel s = hclog.Error <-> statusLabel s = "Server Error") /\
  (statusLevel s = hclog.Error <-> 500 <= s) /\
  (statusLabel s = "Client Error" <-> 400 <= s < 500) /\
  (statusLevel s = hclog.Warn <-> s <= 0 \/ 400 <= s < 500) /\
  (statusLabel s = "Unknown" <-> s < 100) /\
  statusLevel s <> hclog.NoLevel /\ statusLevel s <> hclog.Trace /\
  statusLevel s <> hclog.Debug /\ statusLevel s <> hclog.Off.
Proof.
  unfold statusLevel, statusLabel.
  case_status; repeat split; intros; try discriminate; try reflexivity; lia.
Qed.

Lemma headerLogField_even (w : World) (header : Header) :
  Nat.even (length (headerLogField w header)) = true.
Proof.
  induction header as [|[k vs] header IH]; [reflexivity|].
  rewrite headerLogField_cons, length_app, Nat.even_add, IH.
  destruct vs as [|v0 more]; [reflexivity|].
  rewrite headerStep_nonempty by discriminate.
  destruct (isBuiltinSensitive (ToLower k));
    destruct (bool_decide (ToLower k ∈ skipHeaders w)); reflexivity.
Qed.

(** X11: the field lists that the package builds itself have an even
    number of elements, so their keys and values pair up: the list of
    [requestLogFields], the response list of [Write] and the list of
    [headerLogField]. (A list that a caller hands to [LogEntrySetFields] is
    passed on as it is.) *)
Theorem field_lists_even (w : World) (r : Request) (concise : bool)
    (status bytes : Z) (header : Header) (elapsed : Z) (extra : Extra) :
  Nat.even (length (requestLogFields w r concise)) = true /\
  Nat.even (length (responseLog w status bytes header elapsed extra)) = true /\
  Nat.even (length (headerLogField w header)) = true.
Proof.
  split; [|split].
  - unfold requestLogFields.
    destruct (negb (String.eqb (ReqID r) "")), concise; try reflexivity;
      destruct (0 <? length (Req_Header r))%nat; try reflexivity;
      rewrite length_app, Nat.even_add, headerLogField_even; reflexivity.
  - unfold responseLog.
    destruct (negb (Concise (DefaultOptions w))); [|reflexivity].
    destruct (400 <=? status); destruct (0 <? length header)%nat;
      try reflexivity;
      rewrite length_app, Nat.even_add, headerLogField_even; reflexivity.
  - apply headerLogField_even.
Qed.

(** X12: concise output is a prefix of verbose output: the concise request
    fields start the verbose request fields, and the response fields of a
    concise world start those of any other world for the same response. *)
Theorem concise_fields_prefix (w1 w2 : World) (r : Request)
    (status bytes : Z) (header : Header) (elapsed : Z) (extra : Extra) :
  Concise (DefaultOptions w1) = true ->
  requestLogFields w1 r true `prefix_of` requestLogFields w2 r false /\
  responseLog w1 status bytes header elapsed extra
    `prefix_of` responseLog w2 status bytes header elapsed extra.
Proof.
  intros Hc. split.
  - unfold requestLogFields.
    destruct (negb (String.eqb (ReqID r) ""));
      destruct (0 <? length (Req_Header r))%nat;
      rewrite <- ?app_assoc; eexists; reflexivity.
  - unfold responseLog. rewrite Hc. simpl.
    destruct (negb (Concise (DefaultOptions w2))); [|exists []; reflexivity].
    destruct (400 <=? status); destruct (0 <? length header)%nat;
      rewrite <- ?app_assoc; eexists; simpl; reflexivity.
Qed.

Lemma concise_fields_prefix_witness :
  requestLogFields world_concise request0 true
    `prefix_of` requestLogFields world0 request0 false /\
  responseLog world_concise 503 13 (Req_Header request0) 1500000 ExtraNil
    `prefix_of` responseLog world0 503 13 (Req_Header request0) 1500000 ExtraNil.
Proof.
  exact (concise_fields_prefix world_concise world0 request0 503 13
           (Req_Header request0) 1500000 ExtraNil eq_refl).
Defined.

(** ** Further properties: panics *)

(** X13: [Panic] logs nothing itself. The flush that follows makes one call
    on the entry's logger extended with the stacktrace and panic fields;
    the stack text is in the stacktrace field only with JSON output (else
    the field is "#" and the pretty stack is printed once); the message is
    the status line followed by " - " and the panic text, or the bare status
    line when the panic text is empty. *)
Theorem Panic_then_Write (w : World) (l : RequestLoggerEntry)
    (v_text stack : string) (status bytes : Z) (header : Header)
    (elapsed : Z) (extra : Extra) :
  let w1 := (Panic w l v_text stack).1 in
  let l1 := (Panic w l v_text stack).2 in
  logged w1 = logged w /\
  prettyStacks w1 =
    (if JSONFormat (DefaultOptions w) then prettyStacks w
     else prettyStacks w ++ [v_text]) /\
  logged (Write w1 l1 status bytes header elapsed extra) =
    logged w ++
      [ {| hclog.call_logger :=
             hclog.With (Logger l)
               [VStr "stacktrace";
                VStr (if JSONFormat (DefaultOptions w) then stack else "#");
                VStr "panic"; VStr v_text];
           hclog.call_level := statusLevel status;
           hclog.call_msg :=
             if String.eqb v_text ""
             then Sprintf_d status +:+ " " +:+ statusLabel status
             else (Sprintf_d status +:+ " " +:+ statusLabel status)
                  +:+ " - " +:+ v_text;
           hclog.call_args := responseLog w status bytes header elapsed extra |} ].
Proof.
  cbv zeta. unfold Panic, Write, log_call, writeMsg. simpl.
  destruct (JSONFormat (DefaultOptions w)); simpl;
    destruct (String.eqb v_text ""); repeat split; reflexivity.
Qed.

(** ** Further properties: enrichment and the middleware *)

Lemma LogEntrySetField_stored_witness :
  exists w',
    LogEntrySetField world_entry (CtxEntry (Some 1%positive)) "user" "alice"
      = Some w' /\
    LogEntry w' (CtxEntry (Some 1%positive))
      = Some (hclog.With (Logger entry0) [VStr "user"; VStr "alice"]).
Proof.
  exact (LogEntrySetField_stored world_entry 1%positive entry0 "user" "alice"
           eq_refl).
Defined.

Lemma LogEntrySetFields_frame_dom (w w' : World) (ctx : ctxValue)
    (fields : list value) :
  LogEntrySetFields w ctx fields = Some w' ->
  forall q, is_Some (entries w !! q) -> is_Some (entries w' !! q).
Proof.
  intros H q Hq. destruct ctx as [|v|[p|]]; simpl in H;
    try (injection H as <-; assumption); [|discriminate].
  destruct (entries w !! p) as [e|] eqn:Hp; simpl in H; [|discriminate].
  injection H as <-. simpl.
  destruct (decide (p = q)) as [<-|Hne].
  - rewrite lookup_insert_eq. eexists; reflexivity.
  - rewrite lookup_insert_ne by assumption. assumption.
Qed.

(** X14: setting fields logs nothing and leaves the configuration, the
    arrays, the set of stored entries and every entry's panic message as
    they were; entries other than the one in the context are untouched. *)
Theorem LogEntrySetFields_frame (w w' : World) (ctx : ctxValue)
    (fields : list value) :
  LogEntrySetFields w ctx fields = Some w' ->
  logged w' = logged w /\
  DefaultOptions w' = DefaultOptions w /\
  strArrays w' = strArrays w /\
  prettyStacks w' = prettyStacks w /\
  (forall q, is_Some (entries w' !! q) <-> is_Some (entries w !! q)) /\
  (forall q, msg <$> entries w' !! q = msg <$> entries w !! q) /\
  (forall q, ctx <> CtxEntry (Some q) -> entries w' !! q = entries w !! q).
Proof.
  intros H. destruct ctx as [|v|[p|]]; simpl in H;
    try (injection H as <-; repeat split; auto; fail); [|discriminate].
  destruct (entries w !! p) as [e|] eqn:Hp; simpl in H; [|discriminate].
  injection H as <-. simpl.
  split; [reflexivity|]. split; [reflexivity|]. split; [reflexivity|].
  split; [reflexivity|]. split; [|split].
  - intros q. destruct (decide (p = q)) as [<-|Hne].
    + rewrite lookup_insert_eq, Hp. split; intros _; eexists; reflexivity.
    + rewrite lookup_insert_ne by assumption. reflexivity.
  - intros q. destruct (decide (p = q)) as [<-|Hne].
    + rewrite lookup_insert_eq, Hp. reflexivity.
    + rewrite lookup_insert_ne by assumption. reflexivity.
  - intros q Hq. apply lookup_insert_ne. congruence.
Qed.

Lemma LogEntrySetFields_frame_witness :
  logged (set_entry world_entry 1%positive
            {| Logger := hclog.With (Logger entry0) [VStr "n"; VInt 3];
               msg := msg entry0 |}) = logged world_entry.
Proof.
  apply (LogEntrySetFields_frame world_entry _ (CtxEntry (Some 1%positive))
           [VStr "n"; VInt 3]).
  reflexivity.
Defined.

Lemma LogEntrySetField_as_fields (w : World) (ctx : ctxValue) (key val : string) :
  LogEntrySetField w ctx key val = LogEntrySetFields w ctx [VStr key; VStr val].
Proof. destruct ctx as [|v|[p|]]; reflexivity. Qed.

Lemma fresh_entry_None (w : World) :
  entries w !! (fresh (dom (entries w)) : loc) = None.
Proof. apply not_elem_of_dom. apply is_fresh. Qed.

(** X15: the middleware logs each request once, after whatever the
    downstream handler logged and also when that handler panics: if the
    downstream handler keeps stored entries stored, [Handler] returns, the
    log grows by exactly one call, at the level of the final status, and the
    panic flag is passed on. The downstream handler gets a context that
    holds the new entry, at an address no stored entry had. *)
Theorem Handler_flushes_once (l : hclog.Logger) (next : NextHandler)
    (elapsed : Z) (w : World) (r : Request) :
  (forall w0 ctx r0 p,
     is_Some (entries w0 !! p) ->
     is_Some (entries (sv_world (next w0 ctx r0)) !! p)) ->
  let p : loc := fresh (dom (entries w)) in
  let w1 := set_entry w p (NewLogEntry w l r) in
  let sv := next w1 (CtxEntry (Some p)) r in
  entries w !! p = None /\
  LogEntry w1 (CtxEntry (Some p)) = Some (Logger (NewLogEntry w l r)) /\
  exists w' c,
    Handler l next elapsed w r = Some (w', sv_panics sv) /\
    logged w' = logged (sv_world sv) ++ [c] /\
    hclog.call_level c = statusLevel (sv_Status sv) /\
    entries w' = entries (sv_world sv) /\
    DefaultOptions w' = DefaultOptions (sv_world sv).
Proof.
  intros Hkeep p w1 sv.
  split; [apply fresh_entry_None|]. split.
  - unfold LogEntry, w1, set_entry. simpl. rewrite lookup_insert_eq. reflexivity.
  - assert (Hp : is_Some (entries (sv_world sv) !! p)).
    { apply Hkeep. unfold w1, set_entry. simpl.
      rewrite lookup_insert_eq. eexists; reflexivity. }
    destruct Hp as [e He].
    unfold Handler. fold p. fold w1. fold sv. rewrite He. simpl.
    eexists _, _. split; [reflexivity|]. repeat split; reflexivity.
Qed.

Lemma enrichingHandler_keeps (fields : list value) (key val : string)
    (status : Z) (body : list ascii) (w0 : World) (ctx : ctxValue)
    (r0 : Request) (p : loc) :
  is_Some (entries w0 !! p) ->
  is_Some (entries (sv_world (enrichingHandler fields key val status body
                                w0 ctx r0)) !! p).
Proof.
  intros Hp. unfold enrichingHandler. simpl.
  rewrite LogEntrySetField_as_fields.
  set (wa := default w0 (LogEntrySetFields w0 ctx fields)).
  assert (Ha : is_Some (entries wa !! p)).
  { unfold wa. destruct (LogEntrySetFields w0 ctx fields) as [w'|] eqn:E;
      simpl; [|assumption].
    apply (LogEntrySetFields_frame_dom w0 w' ctx fields E). assumption. }
  destruct (LogEntrySetFields wa ctx [VStr key; VStr val]) as [w'|] eqn:E;
    simpl; [|assumption].
  apply (LogEntrySetFields_frame_dom wa w' ctx _ E). assumption.
Qed.

Lemma Handler_flushes_once_witness :
  exists w' c,
    Handler (hclog.IntLogger []) (enrichingHandler [] "user" "alice" 200 [])
      1500000 world0 request0 = Some (w', false) /\
    logged w' = [] ++ [c] /\
    hclog.call_level c = hclog.Info.
Proof.
  destruct (Handler_flushes_once (hclog.IntLogger [])
              (enrichingHandler [] "user" "alice" 200 []) 1500000 world0
              request0 (enrichingHandler_keeps [] "user" "alice" 200 []))
    as (_ & _ & w' & c & H1 & H2 & H3 & _).
  exists w', c. split; [exact H1|]. split; [exact H2|exact H3].
Defined.

(** X16: what a downstream handler sets on the entry is part of the one log
    call of the request: with a handler that calls [LogEntrySetFields] and
    then [LogEntrySetField], the call is made on the logger derived from
    the concise request fields, then the fields, then the key and value;
    the body is handed over only for a status of 400 or more; entries
    stored before the request are as they were. *)
Theorem Handler_enrichment_reflected (l : hclog.Logger) (fields : list value)
    (key val : string) (status : Z) (body : list ascii) (elapsed : Z)
    (w : World) (r : Request) :
  exists w',
    Handler l (enrichingHandler fields key val status body) elapsed w r
      = Some (w', false) /\
    logged w' =
      logged w ++
        [ {| hclog.call_logger :=
               hclog.With
                 (hclog.With (hclog.With l (requestLogFields w r true)) fields)
                 [VStr key; VStr val];
             hclog.call_level := statusLevel status;
             hclog.call_msg := Sprintf_d status +:+ " " +:+ statusLabel status;
             hclog.call_args :=
               responseLog w status (Z.of_nat (length body)) [] elapsed
                 (ExtraBytes (if 400 <=? status then Some body else None)) |} ] /\
    (forall q, is_Some (entries w !! q) -> entries w' !! q = entries w !! q).
Proof.
  pose proof (fresh_entry_None w) as Hfresh.
  unfold Handler, enrichingHandler. simpl.
  set (p := fresh (dom (entries w)) : loc) in *.
  rewrite lookup_insert_eq. simpl.
  rewrite lookup_insert_eq. simpl.
  rewrite lookup_insert_eq. simpl.
  eexists. split; [reflexivity|]. split.
  - reflexivity.
  - intros q [e Hq]. simpl.
    assert (Hne : p <> q) by (intros ->; congruence).
    rewrite !lookup_insert_ne by assumption. reflexivity.
Qed.

(** X17: with concise off, the deferred function of [Handler] logs the teed
    bytes as [responseBody] when the status is 400 or more, byte for byte,
    and logs no [responseBody] at all for a lower status, whatever was
    teed. *)
Theorem Handler_deferred_body (w : World) (entry : RequestLoggerEntry)
    (status bytesWritten : Z) (header : Header) (elapsed : Z)
    (buf : list ascii) :
  Concise (DefaultOptions w) = false ->
  logged (Handler_deferred w entry status bytesWritten header elapsed buf) =
    logged w ++
      [ {| hclog.call_logger := Logger entry;
           hclog.call_level := statusLevel status;
           hclog.call_msg := writeMsg entry status;
           hclog.call_args :=
             baseResponseFields status bytesWritten elapsed
             ++ (if 400 <=? status
                 then [VStr "responseBody"; VStr (String.string_of_list_ascii buf)]
                 else [])
             ++ headerLogField w header |} ].
Proof.
  intros Hc.
  unfold Handler_deferred, Write, log_call, responseLog. simpl.
  rewrite Hc. simpl.
  destruct (400 <=? status); simpl; destruct header as [|kv header];
    reflexivity.
Qed.

Lemma Handler_deferred_body_witness :
  logged (Handler_deferred world0 entry0 302 0 [("Location", ["/login"])] 250000
            (String.list_ascii_of_string "redirecting")) =
    [ {| hclog.call_logger := Logger entry0;
         hclog.call_level := hclog.Info;
         hclog.call_msg := "302 Redirect";
         hclog.call_args :=
           [VStr "status"; VInt 302; VStr "bytes"; VInt 0;
            VStr "elapsed"; VFloat 0.25%float;
            VStr "location"; VStr "/login"] |} ].
Proof.
  pose proof (Handler_deferred_body world0 entry0 302 0 [("Location", ["/login"])]
                250000 (String.list_ascii_of_string "redirecting") eq_refl)
    as H.
  exact H.
Defined.

(** X18: with the entry of the context in the store, a field set with
    [LogEntrySetField] is what [LogEntry] returns afterwards, a second one
    comes after the first, and the entry's panic message is kept. *)
Theorem LogEntrySetField_then_LogEntry (w : World) (p : loc)
    (e : RequestLoggerEntry) (k1 v1 k2 v2 : string) :
  entries w !! p = Some e ->
  exists w1 w2,
    LogEntrySetField w (CtxEntry (Some p)) k1 v1 = Some w1 /\
    LogEntry w1 (CtxEntry (Some p))
      = Some (hclog.With (Logger e) [VStr k1; VStr v1]) /\
    LogEntrySetField w1 (CtxEntry (Some p)) k2 v2 = Some w2 /\
    LogEntry w2 (CtxEntry (Some p))
      = Some (hclog.With (hclog.With (Logger e) [VStr k1; VStr v1])
                [VStr k2; VStr v2]) /\
    msg <$> entries w2 !! p = Some (msg e).
Proof.
  intros He.
  set (e1 := {| Logger := hclog.With (Logger e) [VStr k1; VStr v1];
                msg := msg e |}).
  set (e2 := {| Logger := hclog.With (Logger e1) [VStr k2; VStr v2];
                msg := msg e1 |}).
  exists (set_entry w p e1), (set_entry (set_entry w p e1) p e2).
  unfold LogEntrySetField, LogEntry. rewrite He. simpl.
  rewrite !lookup_insert_eq. simpl.
  repeat split; reflexivity.
Qed.

Lemma LogEntrySetField_then_LogEntry_witness :
  exists w1 w2,
    LogEntrySetField world_entry (CtxEntry (Some 1%positive)) "user" "alice"
      = Some w1 /\
    LogEntry w1 (CtxEntry (Some 1%positive))
      = Some (hclog.With (Logger entry0) [VStr "user"; VStr "alice"]) /\
    LogEntrySetField w1 (CtxEntry (Some 1%positive)) "plan" "pro" = Some w2 /\
    LogEntry w2 (CtxEntry (Some 1%positive))
      = Some (hclog.With (hclog.With (Logger entry0) [VStr "user"; VStr "alice"])
                [VStr "plan"; VStr "pro"]) /\
    msg <$> entries w2 !! 1%positive = Some (msg entry0).
Proof.
  exact (LogEntrySetField_then_LogEntry world_entry 1%positive entry0
           "user" "alice" "plan" "pro" eq_refl).
Defined.

(** ** Properties: what [Configure] stores *)

Lemma lowerByte_table (c : ascii) : lowerByte c = lowerLetterOf c.
Proof. destruct c as [[] [] [] [] [] [] [] []]; reflexivity. Qed.

Lemma ToLower_lowerCaseOf (s : string) : lowerCaseOf s (ToLower s).
Proof.
  unfold lowerCaseOf. induction s as [|c s IH]; simpl; [reflexivity|].
  rewrite lowerByte_table, IH. reflexivity.
Qed.

Lemma elems_Configure (w : World) (opts : Options) :
  elems (Configure w opts) (SkipHeaders opts)
  = map ToLower (elems w (SkipHeaders opts)).
Proof.
  pose proof (skipHeaders_Configure w opts) as H. unfold skipHeaders in H.
  destruct (Configure_other_fields w opts) as (_ & _ & _ & _ & Hs).
  rewrite Hs in H. exact H.
Qed.


